(** * The schema facade of database/schema/schema.go

    A shallow embedding of the [Schema] facade: construction by driver
    dispatch, the mutating operations and their transactional build, and the
    introspection helpers.  The collaborators the facade only sees through an
    interface (configuration store, logging sink, query engine, dialect
    grammars, processors and driver schemas) are kept abstract and bundled in
    two classes; the facade itself is written out function by function. *)

From Stdlib Require Import String Ascii List ZArith Lia Bool.
Import ListNotations.
Open Scope string_scope.
Open Scope Z_scope.

(** ** The parts of Go's [strings] and [slices] packages the facade calls *)

Module strings.

(** [strings.HasPrefix s prefix]. *)
Definition HasPrefix (s prefix : string) : bool := String.prefix prefix s.

(** [strings.Index s substr]: the least offset at which [substr] occurs in
    [s], or -1. *)
Fixpoint Index (s substr : string) : Z :=
  if HasPrefix s substr then 0
  else match s with
       | EmptyString => -1
       | String _ s' => let i := Index s' substr in
                        if 0 <=? i then i + 1 else -1
       end.

(** [strings.Contains s substr]. *)
Definition Contains (s substr : string) : bool := 0 <=? Index s substr.

(** [strings.LastIndex s substr]: the greatest offset at which [substr]
    occurs in [s], or -1. *)
Fixpoint LastIndex (s substr : string) : Z :=
  match s with
  | EmptyString => if HasPrefix s substr then 0 else -1
  | String _ s' => let i := LastIndex s' substr in
                   if 0 <=? i then i + 1
                   else if HasPrefix s substr then 0 else -1
  end.

End strings.

(** The slice expressions [s[:hi]] and [s[lo:]].  Go panics when the bound is
    outside [0 .. len(s)]; the facade only slices at an offset returned by
    [strings.LastIndex] after [strings.Contains] succeeded, which lemma
    [LastIndex_dot_in_range] below shows to be in range. *)
Definition slice_to (s : string) (hi : Z) : string :=
  substring 0 (Z.to_nat hi) s.

Definition slice_from (s : string) (lo : Z) : string :=
  substring (Z.to_nat lo) (String.length s - Z.to_nat lo) s.

Module slices.

(** [slices.Contains] on a []string. *)
Fixpoint Contains (s : list string) (v : string) : bool :=
  match s with
  | [] => false
  | x :: rest => if String.eqb x v then true else Contains rest v
  end.

End slices.

(** ** Errors *)

(** Go's [error] values as they reach the facade.  [QueryError] stands for
    whatever the query engine or a driver schema reports; the other
    constructors are the kinds of the [errors] package the facade fills in
    with [Args]. *)
Inductive Error : Type :=
| QueryError (msg : string)
| SchemaDriverNotSupported (driver : string)
| SchemaFailedToCreateTable (table : string) (cause : Error)
| SchemaFailedToDropTable (table : string) (cause : Error)
| SchemaFailedToDropColumns (table : string) (cause : Error)
| SchemaFailedToRenameTable (table : string) (cause : Error)
| SchemaFailedToChangeTable (table : string) (cause : Error)
| SchemaFailedToGetTables (connection : string) (cause : Error).

(** A Go [(value, error)] pair of results. *)
Inductive Result (A : Type) : Type :=
| Ok (a : A)
| Err (e : Error).
Arguments Ok {A} a.
Arguments Err {A} e.

(** A call that either returns or panics. *)
Inductive Outcome (A : Type) : Type :=
| Returned (a : A)
| Panicked (e : Error).
Arguments Returned {A} a.
Arguments Panicked {A} e.

(** ** The normalized metadata of contracts/database/schema *)

Record contractsschema_Table : Type :=
  mkTable { table_Name : string; table_Schema : string }.
Record contractsschema_Column : Type :=
  mkColumn { column_Name : string; column_Type : string }.
Record contractsschema_Index : Type :=
  mkIndex { index_Name : string; index_Columns : list string }.
Record contractsschema_Type : Type :=
  mkType { type_Name : string; type_Schema : string }.
Record contractsschema_View : Type :=
  mkView { view_Name : string; view_Schema : string }.

(** Modelled from the spec: the driver identifiers of contracts/database, the
    four supported kinds the spec names. *)
Definition DriverPostgres : string := "postgres".
Definition DriverMysql : string := "mysql".
Definition DriverSqlserver : string := "sqlserver".
Definition DriverSqlite : string := "sqlite".

(** The configuration store: an interface with the one method the facade
    calls, [GetString(path, defaultValue...)]; the optional default is an
    [option]. *)
Record config_Config : Type := mkConfig {
  GetString : string -> option string -> string
}.

(** ** State passing

    The facade runs against a database, a logging sink and a query engine;
    their state is threaded through every call. *)

Definition State (W A : Type) : Type := W -> A * W.

Definition ret {W A : Type} (a : A) : State W A := fun w => (a, w).

Definition bind {W A B : Type} (c : State W A) (k : A -> State W B) : State W B :=
  fun w => let (a, w') := c w in k a w'.

Notation "x <- c ;; k" := (bind c (fun x => k))
  (at level 61, c at next level, right associativity).
Notation "c ;;; k" := (bind c (fun _ => k))
  (at level 61, right associativity).

(** ** The collaborators' types

    The facade holds its collaborators as interface values; their
    implementations live outside schema.go. *)
Class Carriers : Type := {
  log_Log : Type;
  contractsschema_Migration : Type;
  contractsorm_Orm : Type;
  contractsorm_Query : Type;
  contractsschema_Grammar : Type;
  contractsschema_Processor : Type;
  contractsschema_CommonSchema : Type;
  contractsschema_DriverSchema : Type;
  contractsschema_DBForeignKey : Type;
  contractsschema_ForeignKey : Type;
  (** what the database engine stores *)
  Database : Type
}.

Section DataModel.

Context {K : Carriers}.

(** The [Schema] struct, field by field, the two embedded interfaces
    first. *)
Record Schema : Type := mkSchema {
  CommonSchema : contractsschema_CommonSchema;
  DriverSchema : contractsschema_DriverSchema;
  config : config_Config;
  grammar : contractsschema_Grammar;
  log : log_Log;
  migrations : list contractsschema_Migration;
  orm : contractsorm_Orm;
  prefix : string;
  processor : contractsschema_Processor;
  schema : string
}.

(** What crosses the boundary to the query engine. *)
Inductive Event : Type :=
| EvBegin (tx : contractsorm_Query)
| EvCommit (tx : contractsorm_Query)
| EvRollback (tx : contractsorm_Query)
| EvExec (query : contractsorm_Query) (sql : string)
| EvScan (query : contractsorm_Query) (sql : string).

(** One call of [Errorf] on a logging sink: the receiver, the format and
    the arguments. *)
Inductive LogArg : Type :=
| ArgString (s : string)
| ArgError (e : Error).

Record LogEntry : Type := mkLogEntry {
  entry_sink : log_Log;
  entry_format : string;
  entry_args : list LogArg
}.

Record World : Type := mkWorld {
  w_db : Database;
  w_events : list Event;
  w_log : list LogEntry
}.

Definition M (A : Type) : Type := State World A.

Definition emit (ev : Event) (w : World) : World :=
  mkWorld (w_db w) (w_events w ++ [ev]) (w_log w).

Definition restore (db : Database) (w : World) : World :=
  mkWorld db (w_events w) (w_log w).

(** [log.Errorf(format, args...)]: the sink records the call. *)
Definition Errorf (sink : log_Log) (format : string) (args : list LogArg) : M unit :=
  fun w => (tt, mkWorld (w_db w) (w_events w)
                        (w_log w ++ [mkLogEntry sink format args])).

(** Modelled from the spec: the Blueprint of blueprint.go, which is not
    part of the source at hand.  It owns the table name, a pending action
    tag (create / drop / drop-if-exists / rename-to / plain-alter) and an
    ordered sequence of commands; the mutators set the tag or append a
    command.  It also keeps the schema and prefix [NewBlueprint] is given. *)
Inductive Action : Type :=
| ActionAlter
| ActionCreate
| ActionDrop
| ActionDropIfExists
| ActionRename (to : string).

Inductive Command : Type :=
| CommandDropColumn (columns : list string)
| CommandAdd (kind : string) (names : list string).

Record Blueprint : Type := mkBlueprint {
  bp_schema : Schema;
  bp_prefix : string;
  bp_table : string;
  bp_action : Action;
  bp_commands : list Command
}.

Definition NewBlueprint (r : Schema) (prefix table : string) : Blueprint :=
  mkBlueprint r prefix table ActionAlter [].

Definition with_action (a : Action) (b : Blueprint) : Blueprint :=
  mkBlueprint (bp_schema b) (bp_prefix b) (bp_table b) a (bp_commands b).

Definition blueprint_Create : Blueprint -> Blueprint := with_action ActionCreate.
Definition blueprint_Drop : Blueprint -> Blueprint := with_action ActionDrop.
Definition blueprint_DropIfExists : Blueprint -> Blueprint :=
  with_action ActionDropIfExists.
Definition blueprint_Rename (to : string) : Blueprint -> Blueprint :=
  with_action (ActionRename to).
Definition blueprint_DropColumn (columns : list string) (b : Blueprint) : Blueprint :=
  mkBlueprint (bp_schema b) (bp_prefix b) (bp_table b) (bp_action b)
              (bp_commands b ++ [CommandDropColumn columns]).

(** The contracts of the collaborators: what schema.go calls on them. *)
Class Contracts : Type := {
  (** contracts/database/orm: [Orm] and [Query] *)
  orm_Name : contractsorm_Orm -> string;
  orm_Query : contractsorm_Orm -> contractsorm_Query;
  orm_Connection : contractsorm_Orm -> string -> contractsorm_Orm;
  (** the handle of a transaction newly opened on the connection *)
  orm_Begin : contractsorm_Orm -> contractsorm_Query;
  query_InTransaction : contractsorm_Query -> bool;
  (** the engine running one statement, and one foreign-key query *)
  engine_exec : contractsorm_Query -> string -> Database -> Result Database;
  engine_scan : contractsorm_Query -> string -> Database ->
                Result (list contractsschema_DBForeignKey);
  (** the [errors] package rendering an error as text *)
  error_Error : Error -> string;
  (** database/schema/grammars *)
  grammars_NewPostgres : string -> contractsschema_Grammar;
  grammars_NewMysql : string -> contractsschema_Grammar;
  grammars_NewSqlserver : string -> contractsschema_Grammar;
  grammars_NewSqlite : log_Log -> string -> contractsschema_Grammar;
  CompileForeignKeys : contractsschema_Grammar -> string -> string -> string;
  (** the statements a grammar compiles a blueprint into *)
  grammar_ToSql : contractsschema_Grammar -> Blueprint -> list string;
  (** database/schema/processors *)
  processors_NewPostgres : contractsschema_Processor;
  processors_NewMysql : contractsschema_Processor;
  processors_NewSqlserver : contractsschema_Processor;
  processors_NewSqlite : contractsschema_Processor;
  ProcessForeignKeys : contractsschema_Processor ->
                       list contractsschema_DBForeignKey ->
                       list contractsschema_ForeignKey;
  (** the common and the per-driver schemas *)
  NewCommonSchema : contractsschema_Grammar -> contractsorm_Orm ->
                    contractsschema_CommonSchema;
  NewPostgresSchema : contractsschema_Grammar -> contractsorm_Orm -> string ->
                      string -> contractsschema_DriverSchema;
  NewMysqlSchema : contractsschema_Grammar -> contractsorm_Orm -> string ->
                   contractsschema_DriverSchema;
  NewSqlserverSchema : contractsschema_Grammar -> contractsorm_Orm -> string ->
                       contractsschema_DriverSchema;
  NewSqliteSchema : contractsschema_Grammar -> contractsorm_Orm -> string ->
                    contractsschema_DriverSchema;
  GetColumns : contractsschema_DriverSchema -> string ->
               M (Result (list contractsschema_Column));
  GetIndexes : contractsschema_DriverSchema -> string ->
               M (Result (list contractsschema_Index));
  GetTables : contractsschema_DriverSchema -> M (Result (list contractsschema_Table));
  GetTypes : contractsschema_DriverSchema -> M (Result (list contractsschema_Type));
  GetViews : contractsschema_DriverSchema -> M (Result (list contractsschema_View))
}.

End DataModel.


(** ** The facade *)

Section Facade.

Context {K : Carriers} {C : Contracts}.

(** [query.Exec(sql)]: the engine runs the statement; a failing statement
    leaves the database as it was. *)
Definition query_Exec (query : contractsorm_Query) (sql : string) : M (option Error) :=
  fun w =>
    match engine_exec query sql (w_db w) with
    | Ok db => (None, emit (EvExec query sql) (restore db w))
    | Err e => (Some e, emit (EvExec query sql) w)
    end.

(** [query.Raw(sql).Scan(&dest)] with a []DBForeignKey destination. *)
Definition query_RawScan (query : contractsorm_Query) (sql : string)
  : M (Result (list contractsschema_DBForeignKey)) :=
  fun w => (engine_scan query sql (w_db w), emit (EvScan query sql) w).

(** Modelled from the spec: [Blueprint.Build], of blueprint.go.  The grammar
    compiles the accumulated action and commands into statements, which are
    executed in sequence against the given query handle, stopping at the
    first failing statement and returning its error. *)
Fixpoint run_statements (query : contractsorm_Query) (statements : list string)
  : M (option Error) :=
  match statements with
  | [] => ret None
  | sql :: rest =>
      err <- query_Exec query sql ;;
      match err with
      | Some e => ret (Some e)
      | None => run_statements query rest
      end
  end.

Definition blueprint_Build (b : Blueprint) (query : contractsorm_Query)
  (grammar : contractsschema_Grammar) : M (option Error) :=
  run_statements query (grammar_ToSql grammar b).

(** Modelled from the spec: [Orm.Transaction], of the query engine.  It opens
    a new transaction, runs the function against the transactional handle,
    and commits on success or rolls back on any error the function returns;
    a rollback puts the database back as it was when the transaction opened.
    Failures of opening, committing or rolling back are not part of the
    spec and are left out. *)
Definition orm_Transaction (o : contractsorm_Orm)
  (txFunc : contractsorm_Query -> M (option Error)) : M (option Error) :=
  fun w =>
    let tx := orm_Begin o in
    let (err, w') := txFunc tx (emit (EvBegin tx) w) in
    match err with
    | None => (None, emit (EvCommit tx) w')
    | Some e => (Some e, emit (EvRollback tx) (restore (w_db w) w'))
    end.

(** [NewSchema]: the driver switch. *)
Definition NewSchema (config : config_Config) (log : log_Log) (orm : contractsorm_Orm)
  (migrations : list contractsschema_Migration) : Outcome Schema :=
  let driver :=
    GetString config ("database.connections." ++ orm_Name orm ++ ".driver") None in
  let prefix :=
    GetString config ("database.connections." ++ orm_Name orm ++ ".prefix") None in
  if String.eqb driver DriverPostgres then
    let schema :=
      GetString config ("database.connections." ++ orm_Name orm ++ ".schema")
                (Some "public") in
    let postgresGrammar := grammars_NewPostgres prefix in
    Returned (mkSchema (NewCommonSchema postgresGrammar orm)
                       (NewPostgresSchema postgresGrammar orm schema prefix)
                       config postgresGrammar log migrations orm prefix
                       processors_NewPostgres schema)
  else if String.eqb driver DriverMysql then
    let schema :=
      GetString config ("database.connections." ++ orm_Name orm ++ ".database") None in
    let mysqlGrammar := grammars_NewMysql prefix in
    Returned (mkSchema (NewCommonSchema mysqlGrammar orm)
                       (NewMysqlSchema mysqlGrammar orm prefix)
                       config mysqlGrammar log migrations orm prefix
                       processors_NewMysql schema)
  else if String.eqb driver DriverSqlserver then
    let sqlserverGrammar := grammars_NewSqlserver prefix in
    Returned (mkSchema (NewCommonSchema sqlserverGrammar orm)
                       (NewSqlserverSchema sqlserverGrammar orm prefix)
                       config sqlserverGrammar log migrations orm prefix
                       processors_NewSqlserver "")
  else if String.eqb driver DriverSqlite then
    let sqliteGrammar := grammars_NewSqlite log prefix in
    Returned (mkSchema (NewCommonSchema sqliteGrammar orm)
                       (NewSqliteSchema sqliteGrammar orm prefix)
                       config sqliteGrammar log migrations orm prefix
                       processors_NewSqlite "")
  else Panicked (SchemaDriverNotSupported driver).

Definition Connection (r : Schema) (name : string) : Outcome Schema :=
  NewSchema (config r) (log r) (orm_Connection (orm r) name) (migrations r).

Definition createBlueprint (r : Schema) (table : string) : Blueprint :=
  NewBlueprint r (prefix r) table.

Definition build (r : Schema) (blueprint : Blueprint) : M (option Error) :=
  if query_InTransaction (orm_Query (orm r)) then
    blueprint_Build blueprint (orm_Query (orm r)) (grammar r)
  else
    orm_Transaction (orm r) (fun tx => blueprint_Build blueprint tx (grammar r)).

(** The caller's callback populates the blueprint it is handed; being
    arbitrary code, it may also act on the world. *)
Definition Create (r : Schema) (table : string) (callback : Blueprint -> M Blueprint)
  : M (option Error) :=
  let blueprint := createBlueprint r table in
  let blueprint := blueprint_Create blueprint in
  blueprint <- callback blueprint ;;
  err <- build r blueprint ;;
  match err with
  | Some err => ret (Some (SchemaFailedToCreateTable table err))
  | None => ret None
  end.

Definition Drop (r : Schema) (table : string) : M (option Error) :=
  let blueprint := createBlueprint r table in
  let blueprint := blueprint_Drop blueprint in
  err <- build r blueprint ;;
  match err with
  | Some err => ret (Some (SchemaFailedToDropTable table err))
  | None => ret None
  end.

Definition DropColumns (r : Schema) (table : string) (columns : list string)
  : M (option Error) :=
  let blueprint := createBlueprint r table in
  let blueprint := blueprint_DropColumn columns blueprint in
  err <- build r blueprint ;;
  match err with
  | Some err => ret (Some (SchemaFailedToDropColumns table err))
  | None => ret None
  end.

Definition DropIfExists (r : Schema) (table : string) : M (option Error) :=
  let blueprint := createBlueprint r table in
  let blueprint := blueprint_DropIfExists blueprint in
  err <- build r blueprint ;;
  match err with
  | Some err => ret (Some (SchemaFailedToDropTable table err))
  | None => ret None
  end.

Definition Rename (r : Schema) (from to : string) : M (option Error) :=
  let blueprint := createBlueprint r from in
  let blueprint := blueprint_Rename to blueprint in
  err <- build r blueprint ;;
  match err with
  | Some err => ret (Some (SchemaFailedToRenameTable from err))
  | None => ret None
  end.

Definition Table (r : Schema) (table : string) (callback : Blueprint -> M Blueprint)
  : M (option Error) :=
  let blueprint := createBlueprint r table in
  blueprint <- callback blueprint ;;
  err <- build r blueprint ;;
  match err with
  | Some err => ret (Some (SchemaFailedToChangeTable table err))
  | None => ret None
  end.


(** *** Introspection *)

Definition GetColumnListing (r : Schema) (table : string) : M (list string) :=
  res <- GetColumns (DriverSchema r) table ;;
  match res with
  | Err err =>
      Errorf (log r) "failed to get %s columns: %v" [ArgString table; ArgError err] ;;;
      ret []
  | Ok columns =>
      ret (fold_left (fun names column => (names ++ [column_Name column])%list) columns [])
  end.

Definition GetConnection (r : Schema) : string := orm_Name (orm r).

Definition GetForeignKeys (r : Schema) (table : string)
  : M (Result (list contractsschema_ForeignKey)) :=
  let table := prefix r ++ table in
  res <- query_RawScan (orm_Query (orm r))
                       (CompileForeignKeys (grammar r) (schema r) table) ;;
  match res with
  | Err err => ret (Err err)
  | Ok dbForeignKeys => ret (Ok (ProcessForeignKeys (processor r) dbForeignKeys))
  end.

Definition GetIndexListing (r : Schema) (table : string) : M (list string) :=
  res <- GetIndexes (DriverSchema r) table ;;
  match res with
  | Err err =>
      Errorf (log r) "failed to get %s indexes: %v" [ArgString table; ArgError err] ;;;
      ret []
  | Ok indexes =>
      ret (fold_left (fun names index => (names ++ [index_Name index])%list) indexes [])
  end.

Definition GetTableListing (r : Schema) : M (list string) :=
  res <- GetTables (DriverSchema r) ;;
  match res with
  | Err err =>
      Errorf (log r) "failed to get tables: %v" [ArgError err] ;;;
      ret []
  | Ok tables =>
      ret (fold_left (fun names table => (names ++ [table_Name table])%list) tables [])
  end.

Definition HasColumn (r : Schema) (table column : string) : M bool :=
  columnListing <- GetColumnListing r table ;;
  ret (slices.Contains columnListing column).

(** The loop of [HasColumns]: false at the first column missing from the
    listing, true when the loop runs out. *)
Fixpoint all_listed (columnListing columns : list string) : bool :=
  match columns with
  | [] => true
  | column :: rest =>
      if negb (slices.Contains columnListing column) then false
      else all_listed columnListing rest
  end.

Definition HasColumns (r : Schema) (table : string) (columns : list string) : M bool :=
  columnListing <- GetColumnListing r table ;;
  ret (all_listed columnListing columns).

Definition HasIndex (r : Schema) (table index : string) : M bool :=
  indexListing <- GetIndexListing r table ;;
  ret (slices.Contains indexListing index).

(** The first lines of [HasTable]: the schema qualifier and the table part
    of the name, split at the last dot. *)
Definition split_name (name : string) : string * string :=
  if strings.Contains name "." then
    let lastDotIndex := strings.LastIndex name "." in
    (slice_to name lastDotIndex, slice_from name (lastDotIndex + 1))
  else ("", name).

(** The loop of [HasTable]. *)
Definition match_table (tables : list contractsschema_Table) (tableName schema : string)
  : bool :=
  existsb (fun table =>
             String.eqb (table_Name table) tableName
             && (String.eqb schema "" || String.eqb schema (table_Schema table)))
          tables.

Definition HasTable (r : Schema) (name : string) : M bool :=
  let (schema, name) := split_name name in
  let tableName := prefix r ++ name in
  res <- GetTables (DriverSchema r) ;;
  match res with
  | Err err =>
      Errorf (log r) (error_Error (SchemaFailedToGetTables (orm_Name (orm r)) err)) [] ;;;
      ret false
  | Ok tables => ret (match_table tables tableName schema)
  end.

Definition HasType (r : Schema) (name : string) : M bool :=
  res <- GetTypes (DriverSchema r) ;;
  match res with
  | Err err =>
      Errorf (log r) (error_Error (SchemaFailedToGetTables (orm_Name (orm r)) err)) [] ;;;
      ret false
  | Ok types => ret (existsb (fun t => String.eqb (type_Name t) name) types)
  end.

Definition HasView (r : Schema) (name : string) : M bool :=
  res <- GetViews (DriverSchema r) ;;
  match res with
  | Err err =>
      Errorf (log r) (error_Error (SchemaFailedToGetTables (orm_Name (orm r)) err)) [] ;;;
      ret false
  | Ok views => ret (existsb (fun view => String.eqb (view_Name view) name) views)
  end.

Definition Migrations (r : Schema) : list contractsschema_Migration := migrations r.

Definition Orm (r : Schema) : contractsorm_Orm := orm r.

(** The two setters assign one field of the receiver; the updated receiver
    is returned. *)
Definition Register (r : Schema) (migrations : list contractsschema_Migration) : Schema :=
  mkSchema (CommonSchema r) (DriverSchema r) (config r) (grammar r) (log r)
           migrations (orm r) (prefix r) (processor r) (schema r).

Definition SetConnection (r : Schema) (name : string) : Schema :=
  mkSchema (CommonSchema r) (DriverSchema r) (config r) (grammar r) (log r)
           (migrations r) (orm_Connection (orm r) name) (prefix r) (processor r)
           (schema r).

End Facade.

(** ** Vocabulary for the statements *)

(** The number of dots in a name. *)
Fixpoint count_dots (s : string) : nat :=
  match s with
  | EmptyString => O
  | String c s' => if Ascii.eqb c "." then S (count_dots s') else count_dots s'
  end.

Section Vocabulary.

Context {K : Carriers} {C : Contracts}.

(** The six mutating operations and their arguments. *)
Inductive Mutation : Type :=
| MCreate (table : string) (callback : Blueprint -> M Blueprint)
| MDrop (table : string)
| MDropIfExists (table : string)
| MDropColumns (table : string) (columns : list string)
| MRename (from to : string)
| MTable (table : string) (callback : Blueprint -> M Blueprint).

(** Running a mutating operation is calling the facade's method. *)
Definition perform (r : Schema) (m : Mutation) : M (option Error) :=
  match m with
  | MCreate table callback => Create r table callback
  | MDrop table => Drop r table
  | MDropIfExists table => DropIfExists r table
  | MDropColumns table columns => DropColumns r table columns
  | MRename from to => Rename r from to
  | MTable table callback => Table r table callback
  end.

(** The blueprint an operation has populated when it reaches [build]. *)
Definition populate (r : Schema) (m : Mutation) : M Blueprint :=
  match m with
  | MCreate table callback => callback (blueprint_Create (createBlueprint r table))
  | MDrop table => ret (blueprint_Drop (createBlueprint r table))
  | MDropIfExists table => ret (blueprint_DropIfExists (createBlueprint r table))
  | MDropColumns table columns =>
      ret (blueprint_DropColumn columns (createBlueprint r table))
  | MRename from to => ret (blueprint_Rename to (createBlueprint r from))
  | MTable table callback => callback (createBlueprint r table)
  end.

(** The error kind each operation wraps a failure of its build in, with the
    table name the operation was given. *)
Definition failure_kind (m : Mutation) : Error -> Error :=
  match m with
  | MCreate table _ => SchemaFailedToCreateTable table
  | MDrop table => SchemaFailedToDropTable table
  | MDropIfExists table => SchemaFailedToDropTable table
  | MDropColumns table _ => SchemaFailedToDropColumns table
  | MRename from _ => SchemaFailedToRenameTable from
  | MTable table _ => SchemaFailedToChangeTable table
  end.

(** What [NewSchema] resolved when it returned: the fields it was given, the
    prefix of the connection, and the dialect the connection's driver
    selects. *)
Definition resolved_for (cfg : config_Config) (sink : log_Log) (o : contractsorm_Orm)
  (ms : list contractsschema_Migration) (s : Schema) : Prop :=
  let key field := "database.connections." ++ orm_Name o ++ field in
  let driver := GetString cfg (key ".driver") None in
  config s = cfg /\ log s = sink /\ orm s = o /\ migrations s = ms /\
  prefix s = GetString cfg (key ".prefix") None /\
  CommonSchema s = NewCommonSchema (grammar s) o /\
  ((driver = DriverPostgres /\
    grammar s = grammars_NewPostgres (prefix s) /\
    processor s = processors_NewPostgres /\
    schema s = GetString cfg (key ".schema") (Some "public") /\
    DriverSchema s = NewPostgresSchema (grammar s) o (schema s) (prefix s)) \/
   (driver = DriverMysql /\
    grammar s = grammars_NewMysql (prefix s) /\
    processor s = processors_NewMysql /\
    schema s = GetString cfg (key ".database") None /\
    DriverSchema s = NewMysqlSchema (grammar s) o (prefix s)) \/
   (driver = DriverSqlserver /\
    grammar s = grammars_NewSqlserver (prefix s) /\
    processor s = processors_NewSqlserver /\
    schema s = "" /\
    DriverSchema s = NewSqlserverSchema (grammar s) o (prefix s)) \/
   (driver = DriverSqlite /\
    grammar s = grammars_NewSqlite sink (prefix s) /\
    processor s = processors_NewSqlite /\
    schema s = "" /\
    DriverSchema s = NewSqliteSchema (grammar s) o (prefix s))).

(** A Schema whose embedded common and driver schemas are built over the
    grammar, orm, prefix and schema name stored in its own fields. *)
Definition well_bound (s : Schema) : Prop :=
  CommonSchema s = NewCommonSchema (grammar s) (orm s) /\
  (DriverSchema s = NewPostgresSchema (grammar s) (orm s) (schema s) (prefix s) \/
   DriverSchema s = NewMysqlSchema (grammar s) (orm s) (prefix s) \/
   DriverSchema s = NewSqlserverSchema (grammar s) (orm s) (prefix s) \/
   DriverSchema s = NewSqliteSchema (grammar s) (orm s) (prefix s)).

(** The world after one more call of [Errorf]. *)
Definition logged (sink : log_Log) (format : string) (args : list LogArg) (w : World)
  : World :=
  mkWorld (w_db w) (w_events w) (w_log w ++ [mkLogEntry sink format args]).

End Vocabulary.

(** ** A small in-memory stand-in for the collaborators

    It runs the facade on concrete inputs.  Connections are named; the
    connection called "down" fails every introspection call; the engine
    stores the text of each statement it runs as a table of the connection,
    and rejects the empty statement. *)

Module Demo.

#[local] Instance carriers : Carriers := {|
  log_Log := string;
  contractsschema_Migration := string;
  contractsorm_Orm := string * bool;
  contractsorm_Query := string * bool;
  contractsschema_Grammar := string * string;
  contractsschema_Processor := string;
  contractsschema_CommonSchema := string;
  contractsschema_DriverSchema := string * string;
  contractsschema_DBForeignKey := string;
  contractsschema_ForeignKey := string;
  Database := list contractsschema_Table
|}.

Definition down (conn : string) : Error := QueryError ("connection refused: " ++ conn).

Definition introspect {A : Type} (ds : string * string) (found : World -> list A)
  : M (Result (list A)) :=
  fun w => if String.eqb (snd ds) "down" then (Err (down (snd ds)), w)
           else (Ok (found w), w).

Definition action_sql (b : Blueprint) : list string :=
  match bp_action b with
  | ActionAlter => []
  | ActionCreate => ["create " ++ bp_prefix b ++ bp_table b]
  | ActionDrop => ["drop " ++ bp_prefix b ++ bp_table b]
  | ActionDropIfExists => ["drop if exists " ++ bp_prefix b ++ bp_table b]
  | ActionRename to => ["rename " ++ bp_prefix b ++ bp_table b ++ " to " ++ to]
  end.

Definition command_sql (c : Command) : string :=
  match c with
  | CommandDropColumn columns => "drop columns " ++ String.concat "," columns
  | CommandAdd kind names => kind
  end.

#[local] Instance contracts : Contracts := {|
  orm_Name := fst;
  orm_Query := fun o => o;
  orm_Connection := fun _ name => (name, false);
  orm_Begin := fun o => (fst o, true);
  query_InTransaction := snd;
  engine_exec := fun q sql db =>
    if String.eqb sql "" then Err (QueryError "empty statement")
    else Ok (db ++ [mkTable sql (fst q)])%list;
  engine_scan := fun q sql db =>
    if String.eqb (fst q) "down" then Err (down (fst q)) else Ok [sql];
  error_Error := fun e =>
    match e with
    | SchemaFailedToGetTables conn _ => "failed to get tables of " ++ conn
    | _ => "error"
    end;
  grammars_NewPostgres := fun prefix => ("postgres", prefix);
  grammars_NewMysql := fun prefix => ("mysql", prefix);
  grammars_NewSqlserver := fun prefix => ("sqlserver", prefix);
  grammars_NewSqlite := fun _ prefix => ("sqlite", prefix);
  CompileForeignKeys := fun g schema table =>
    "foreign keys of " ++ schema ++ "." ++ table;
  grammar_ToSql := fun g b => (action_sql b ++ map command_sql (bp_commands b))%list;
  processors_NewPostgres := "postgres";
  processors_NewMysql := "mysql";
  processors_NewSqlserver := "sqlserver";
  processors_NewSqlite := "sqlite";
  ProcessForeignKeys := fun p rows => map (fun row => p ++ ": " ++ row) rows;
  NewCommonSchema := fun g o => fst o;
  NewPostgresSchema := fun g o schema prefix => ("postgres", fst o);
  NewMysqlSchema := fun g o prefix => ("mysql", fst o);
  NewSqlserverSchema := fun g o prefix => ("sqlserver", fst o);
  NewSqliteSchema := fun g o prefix => ("sqlite", fst o);
  GetColumns := fun ds table =>
    introspect ds (fun _ => [mkColumn "id" "bigint"; mkColumn "email" "text"]);
  GetIndexes := fun ds table =>
    introspect ds (fun _ => [mkIndex (table ++ "_pkey") ["id"]]);
  GetTables := fun ds => introspect ds (fun w => w_db w);
  GetTypes := fun ds => introspect ds (fun _ => [mkType "mood" "public"]);
  GetViews := fun ds => introspect ds (fun _ => [mkView "active_users" "public"])
|}.

(** A configuration with four connections: two of different dialects, one
    that is down, and one whose driver is not supported. *)
Definition settings : list (string * string) :=
  [ ("database.connections.main.driver", "postgres");
    ("database.connections.main.prefix", "app_");
    ("database.connections.reports.driver", "mysql");
    ("database.connections.reports.prefix", "rp_");
    ("database.connections.reports.database", "warehouse");
    ("database.connections.down.driver", "sqlite");
    ("database.connections.legacy.driver", "oracle") ].

Fixpoint lookup (path : string) (l : list (string * string)) : option string :=
  match l with
  | [] => None
  | (k, v) :: rest => if String.eqb k path then Some v else lookup path rest
  end.

Definition configuration : config_Config :=
  mkConfig (fun path defaultValue =>
              match lookup path settings, defaultValue with
              | Some v, _ => v
              | None, Some d => d
              | None, None => ""
              end).

(** The schema of the "main" connection, as [NewSchema] builds it. *)
Definition main : Schema :=
  mkSchema "main" ("postgres", "main") configuration ("postgres", "app_") "stderr"
           ["2024_create_users"] ("main", false) "app_" "postgres" "public".

(** The same schema used from inside a transaction the caller opened. *)
Definition main_in_tx : Schema :=
  mkSchema "main" ("postgres", "main") configuration ("postgres", "app_") "stderr"
           ["2024_create_users"] ("main", true) "app_" "postgres" "public".

(** The schema of the "reports" connection. *)
Definition reports : Schema :=
  mkSchema "reports" ("mysql", "reports") configuration ("mysql", "rp_") "stderr"
           ["2024_create_users"] ("reports", false) "rp_" "mysql" "warehouse".

(** A schema of the connection that is down. *)
Definition broken : Schema :=
  mkSchema "down" ("sqlite", "down") configuration ("sqlite", "") "stderr"
           [] ("down", false) "" "sqlite" "".

Definition empty_world : World := mkWorld [] [] [].

Definition world_with (tables : list contractsschema_Table) : World :=
  mkWorld tables [] [].

(** A callback adding two columns. *)
Definition add_columns (b : Blueprint) : M Blueprint :=
  ret (mkBlueprint (bp_schema b) (bp_prefix b) (bp_table b) (bp_action b)
                   (bp_commands b ++ [CommandAdd "add id" ["id"];
                                      CommandAdd "add email" ["email"]])).

(** A callback adding a command the engine rejects. *)
Definition add_invalid (b : Blueprint) : M Blueprint :=
  ret (mkBlueprint (bp_schema b) (bp_prefix b) (bp_table b) (bp_action b)
                   (bp_commands b ++ [CommandAdd "add id" ["id"];
                                      CommandAdd "" []])).

End Demo.

(** * Properties *)

(** ** Names and their last dot *)

Lemma HasPrefix_dot_cons (c : ascii) (s : string) :
  strings.HasPrefix (String c s) "." = Ascii.eqb c ".".
Proof.
  unfold strings.HasPrefix. cbn [String.prefix].
  destruct (ascii_dec "." c) as [<- | Hne].
  - now destruct s.
  - symmetry. apply Ascii.eqb_neq. congruence.
Qed.

Lemma Index_dot_sign (s : string) :
  (0 <=? strings.Index s ".") = negb (Nat.eqb (count_dots s) 0).
Proof.
  induction s as [| c s IH]; [reflexivity |].
  cbn [strings.Index count_dots]. rewrite HasPrefix_dot_cons.
  destruct (Ascii.eqb c "."); [reflexivity |].
  cbv zeta.
  destruct (0 <=? strings.Index s ".") eqn:E; rewrite <- IH; [| reflexivity].
  apply Z.leb_le in E. apply Z.leb_le. lia.
Qed.

Lemma Contains_dot (s : string) :
  strings.Contains s "." = negb (Nat.eqb (count_dots s) 0).
Proof. exact (Index_dot_sign s). Qed.

Lemma Contains_dot_false (s : string) :
  strings.Contains s "." = false <-> count_dots s = O.
Proof.
  rewrite Contains_dot, negb_false_iff. apply Nat.eqb_eq.
Qed.

Lemma Contains_dot_true (s : string) :
  strings.Contains s "." = true <-> (0 < count_dots s)%nat.
Proof.
  rewrite Contains_dot, negb_true_iff, Nat.eqb_neq. lia.
Qed.

Lemma LastIndex_dot_free (s : string) :
  count_dots s = O -> strings.LastIndex s "." = -1.
Proof.
  induction s as [| c s IH]; [reflexivity |].
  cbn [count_dots strings.LastIndex]. rewrite HasPrefix_dot_cons.
  destruct (Ascii.eqb c "."); [discriminate |].
  intros H. rewrite (IH H). reflexivity.
Qed.

Lemma LastIndex_dot_bounds (s : string) :
  -1 <= strings.LastIndex s "." < Z.of_nat (String.length s).
Proof.
  induction s as [| c s IH]; [cbn; lia |].
  cbn [strings.LastIndex String.length]. rewrite HasPrefix_dot_cons. cbv zeta.
  destruct (0 <=? strings.LastIndex s ".") eqn:E.
  - apply Z.leb_le in E. lia.
  - destruct (Ascii.eqb c "."); lia.
Qed.

(** The offsets [HasTable] slices at are inside the name: neither slice
    expression can panic. *)
Lemma LastIndex_dot_in_range (name : string) :
  strings.Contains name "." = true ->
  0 <= strings.LastIndex name "." /\
  strings.LastIndex name "." + 1 <= Z.of_nat (String.length name).
Proof.
  intros H. pose proof (LastIndex_dot_bounds name) as B.
  split; [| lia].
  apply Contains_dot_true in H.
  induction name as [| c s IH]; [cbn in H; lia |].
  cbn [strings.LastIndex]. rewrite HasPrefix_dot_cons. cbv zeta.
  destruct (0 <=? strings.LastIndex s ".") eqn:E.
  - apply Z.leb_le in E. lia.
  - cbn [count_dots] in H. destruct (Ascii.eqb c "."); [lia |].
    pose proof (LastIndex_dot_bounds s). apply Z.leb_gt in E.
    specialize (IH H). lia.
Qed.

Lemma LastIndex_dot_app (q t : string) :
  count_dots t = O ->
  strings.LastIndex (q ++ "." ++ t) "." = Z.of_nat (String.length q).
Proof.
  intros Ht. induction q as [| c q IH].
  - cbn [append strings.LastIndex String.length]. rewrite HasPrefix_dot_cons.
    rewrite (LastIndex_dot_free t Ht). reflexivity.
  - cbn [append strings.LastIndex String.length] in IH |- *. cbv zeta. rewrite IH.
    replace (0 <=? Z.of_nat (String.length q)) with true
      by (symmetry; apply Z.leb_le; lia).
    lia.
Qed.

Lemma count_dots_app (q t : string) :
  count_dots (q ++ t) = (count_dots q + count_dots t)%nat.
Proof.
  induction q as [| c q IH]; [reflexivity |].
  cbn [append count_dots]. rewrite IH. now destruct (Ascii.eqb c ".").
Qed.

(** A name with a dot is a qualifier, a dot and a last segment without
    dots. *)
Lemma last_dot_decomposition (name : string) :
  (0 < count_dots name)%nat ->
  exists q t, name = q ++ "." ++ t /\ count_dots t = O.
Proof.
  induction name as [| c s IH]; [cbn; lia |].
  intros H. destruct (Nat.eq_dec (count_dots s) 0) as [Hs | Hs].
  - cbn [count_dots] in H. destruct (Ascii.eqb c ".") eqn:E; [| lia].
    apply Ascii.eqb_eq in E. subst c. now exists "", s.
  - destruct IH as (q & t & -> & Ht); [lia |].
    now exists (String c q), t.
Qed.

Lemma substring_whole (s : string) : substring 0 (String.length s) s = s.
Proof. induction s as [| c s IH]; [reflexivity |]. cbn. now rewrite IH. Qed.

Lemma slice_to_app (q s : string) :
  slice_to (q ++ s) (Z.of_nat (String.length q)) = q.
Proof.
  unfold slice_to. rewrite Nat2Z.id.
  induction q as [| c q IH]; [now destruct s |].
  cbn. now rewrite IH.
Qed.

Lemma length_app (q t : string) :
  String.length (q ++ t) = (String.length q + String.length t)%nat.
Proof. induction q as [| c q IH]; [reflexivity |]. cbn. now rewrite IH. Qed.

Lemma substring_after_dot (q t : string) :
  substring (S (String.length q)) (String.length t) (q ++ "." ++ t) = t.
Proof.
  induction q as [| c q IH]; [apply substring_whole | exact IH].
Qed.

Lemma slice_from_app (q t : string) :
  slice_from (q ++ "." ++ t) (Z.of_nat (String.length q) + 1) = t.
Proof.
  unfold slice_from.
  replace (Z.to_nat (Z.of_nat (String.length q) + 1)) with (S (String.length q)) by lia.
  replace (String.length (q ++ "." ++ t) - S (String.length q))%nat
    with (String.length t).
  - apply substring_after_dot.
  - rewrite !length_app. cbn [String.length]. lia.
Qed.

Lemma split_name_qualified (q t : string) :
  count_dots t = O -> split_name (q ++ "." ++ t) = (q, t).
Proof.
  intros Ht. unfold split_name.
  replace (strings.Contains (q ++ "." ++ t) ".") with true.
  - rewrite (LastIndex_dot_app q t Ht), slice_to_app, slice_from_app. reflexivity.
  - symmetry. apply Contains_dot_true. rewrite count_dots_app. cbn. lia.
Qed.

Lemma split_name_plain (name : string) :
  count_dots name = O -> split_name name = ("", name).
Proof.
  intros H. unfold split_name.
  now rewrite (proj2 (Contains_dot_false name) H).
Qed.

(** ** The facade *)

Section Properties.

Context {K : Carriers} {C : Contracts}.

Lemma bind_eq {A B : Type} {c : M A} (k : A -> M B) {w w' : World} {a : A} :
  c w = (a, w') -> bind c k w = k a w'.
Proof. unfold bind. now intros ->. Qed.

Lemma Errorf_logged (sink : log_Log) (format : string) (args : list LogArg) (w : World) :
  Errorf sink format args w = (tt, logged sink format args w).
Proof. reflexivity. Qed.

(** The append loop of the listings collects the names in order. *)
Lemma fold_append_names {A : Type} (name : A -> string) (l : list A) (acc : list string) :
  fold_left (fun names x => (names ++ [name x])%list) l acc = (acc ++ map name l)%list.
Proof.
  revert acc. induction l as [| x l IH]; intros acc; cbn.
  - now rewrite app_nil_r.
  - rewrite IH, <- app_assoc. reflexivity.
Qed.

(** C7: when the corresponding Get* call succeeds, each listing is the
    sequence of the Name fields of the entities that call returned, in the
    same order, and the world is as that call left it. *)
Theorem listings_project_names (r : Schema) (w w1 : World) :
  (forall table columns,
      GetColumns (DriverSchema r) table w = (Ok columns, w1) ->
      GetColumnListing r table w = (map column_Name columns, w1)) /\
  (forall table indexes,
      GetIndexes (DriverSchema r) table w = (Ok indexes, w1) ->
      GetIndexListing r table w = (map index_Name indexes, w1)) /\
  (forall tables,
      GetTables (DriverSchema r) w = (Ok tables, w1) ->
      GetTableListing r w = (map table_Name tables, w1)).
Proof.
  repeat split; intros.
  - unfold GetColumnListing. rewrite (bind_eq _ H).
    now rewrite fold_append_names.
  - unfold GetIndexListing. rewrite (bind_eq _ H).
    now rewrite fold_append_names.
  - unfold GetTableListing. rewrite (bind_eq _ H).
    now rewrite fold_append_names.
Qed.

(** C8: GetForeignKeys prefixes the table name, has the grammar compile the
    foreign-key query for the configured schema, runs it on the schema's
    query handle, and returns the processor's normalization of the rows on
    success and the engine's error itself on failure. *)
Theorem GetForeignKeys_contract (r : Schema) (table : string) (w : World) :
  let query := orm_Query (orm r) in
  let sql := CompileForeignKeys (grammar r) (schema r) (prefix r ++ table) in
  GetForeignKeys r table w =
    (match engine_scan query sql (w_db w) with
     | Ok dbForeignKeys => Ok (ProcessForeignKeys (processor r) dbForeignKeys)
     | Err err => Err err
     end,
     emit (EvScan query sql) w).
Proof.
  cbv zeta. unfold GetForeignKeys, query_RawScan, bind.
  now destruct (engine_scan _ _ _).
Qed.

(** C9: SetConnection rebinds the orm field to the named connection and
    leaves every other field of the Schema as it was. *)
Theorem SetConnection_frame (r : Schema) (name : string) :
  let r' := SetConnection r name in
  orm r' = orm_Connection (orm r) name /\
  grammar r' = grammar r /\
  processor r' = processor r /\
  prefix r' = prefix r /\
  schema r' = schema r /\
  config r' = config r /\
  log r' = log r /\
  migrations r' = migrations r /\
  CommonSchema r' = CommonSchema r /\
  DriverSchema r' = DriverSchema r.
Proof. cbn. repeat split. Qed.

(** *** Construction *)

Lemma NewSchema_unsupported (cfg : config_Config) (sink : log_Log) (o : contractsorm_Orm)
  (ms : list contractsschema_Migration) :
  let driver := GetString cfg ("database.connections." ++ orm_Name o ++ ".driver") None in
  driver <> DriverPostgres -> driver <> DriverMysql ->
  driver <> DriverSqlserver -> driver <> DriverSqlite ->
  NewSchema cfg sink o ms = Panicked (SchemaDriverNotSupported driver).
Proof.
  cbv zeta. intros H1 H2 H3 H4. unfold NewSchema.
  apply String.eqb_neq in H1, H2, H3, H4. now rewrite H1, H2, H3, H4.
Qed.

Lemma NewSchema_Returned (cfg : config_Config) (sink : log_Log) (o : contractsorm_Orm)
  (ms : list contractsschema_Migration) (s : Schema) :
  NewSchema cfg sink o ms = Returned s -> resolved_for cfg sink o ms s.
Proof.
  unfold NewSchema, resolved_for.
  repeat match goal with
         | |- context [String.eqb ?a ?b] => destruct (String.eqb_spec a b)
         end; intros H; inversion H; subst; cbn;
    repeat split; tauto.
Qed.

(** C3: a driver string that is none of the four supported kinds makes
    construction panic with the error naming that driver, so that no Schema
    is returned; each supported driver makes it return a Schema with the
    grammar, processor and driver schema of that dialect. *)
Theorem NewSchema_driver_dispatch (cfg : config_Config) (sink : log_Log)
  (o : contractsorm_Orm) (ms : list contractsschema_Migration) :
  let key field := "database.connections." ++ orm_Name o ++ field in
  let driver := GetString cfg (key ".driver") None in
  let pfx := GetString cfg (key ".prefix") None in
  (driver <> DriverPostgres -> driver <> DriverMysql ->
   driver <> DriverSqlserver -> driver <> DriverSqlite ->
   NewSchema cfg sink o ms = Panicked (SchemaDriverNotSupported driver)) /\
  (driver = DriverPostgres ->
   exists s, NewSchema cfg sink o ms = Returned s /\
     grammar s = grammars_NewPostgres pfx /\
     processor s = processors_NewPostgres /\
     DriverSchema s = NewPostgresSchema (grammars_NewPostgres pfx) o
                        (GetString cfg (key ".schema") (Some "public")) pfx) /\
  (driver = DriverMysql ->
   exists s, NewSchema cfg sink o ms = Returned s /\
     grammar s = grammars_NewMysql pfx /\
     processor s = processors_NewMysql /\
     DriverSchema s = NewMysqlSchema (grammars_NewMysql pfx) o pfx) /\
  (driver = DriverSqlserver ->
   exists s, NewSchema cfg sink o ms = Returned s /\
     grammar s = grammars_NewSqlserver pfx /\
     processor s = processors_NewSqlserver /\
     DriverSchema s = NewSqlserverSchema (grammars_NewSqlserver pfx) o pfx) /\
  (driver = DriverSqlite ->
   exists s, NewSchema cfg sink o ms = Returned s /\
     grammar s = grammars_NewSqlite sink pfx /\
     processor s = processors_NewSqlite /\
     DriverSchema s = NewSqliteSchema (grammars_NewSqlite sink pfx) o pfx).
Proof.
  cbv zeta. split; [apply NewSchema_unsupported |].
  unfold NewSchema.
  repeat split; intros ->; cbn; eexists; repeat split.
Qed.

(** C2, amended: Connection builds a new Schema by running the construction
    again for the named connection, so that when it returns, the Schema is
    bound to that connection and carries the prefix, schema, grammar,
    processor and driver schema the configuration gives for it;
    SetConnection binds the orm of the existing Schema to the named
    connection. *)
Theorem Connection_resolves_named_connection (r : Schema) (name : string) :
  Connection r name =
    NewSchema (config r) (log r) (orm_Connection (orm r) name) (migrations r) /\
  (forall s, Connection r name = Returned s ->
             resolved_for (config r) (log r) (orm_Connection (orm r) name)
                          (migrations r) s) /\
  orm (SetConnection r name) = orm_Connection (orm r) name.
Proof.
  split; [reflexivity | split; [| reflexivity]].
  intros s H. now apply NewSchema_Returned.
Qed.

(** *** Mutating operations and the transactional build *)

Lemma perform_populate_build (r : Schema) (m : Mutation) (w : World) :
  perform r m w =
    (let (blueprint, w0) := populate r m w in
     let (err, w1) := build r blueprint w0 in
     (option_map (failure_kind m) err, w1)).
Proof.
  destruct m; cbn [perform populate failure_kind];
    unfold Create, Drop, DropIfExists, DropColumns, Rename, Table, bind, ret;
    try destruct (callback _ w) as [blueprint w0];
    match goal with |- context [build ?r ?b ?w] => destruct (build r b w) as [[e |] w1] end;
    reflexivity.
Qed.

(** The statements a build runs are an initial part of what the grammar
    compiled, all of it when the build succeeds; each reaches the engine on
    the given handle, and nothing else does. *)
Lemma run_statements_trace (query : contractsorm_Query) (statements : list string)
  (w : World) :
  exists ran rest,
    statements = (ran ++ rest)%list /\
    w_events (snd (run_statements query statements w)) =
      (w_events w ++ map (EvExec query) ran)%list /\
    w_log (snd (run_statements query statements w)) = w_log w /\
    (fst (run_statements query statements w) = None -> rest = []).
Proof.
  revert w. induction statements as [| sql statements IH]; intros w.
  - exists [], []. cbn. now rewrite app_nil_r.
  - cbn [run_statements]. unfold bind, query_Exec.
    destruct (engine_exec query sql (w_db w)) as [db | e].
    + destruct (IH (emit (EvExec query sql) (restore db w))) as (ran & rest & -> & Hev & Hlog & Hnone).
      exists (sql :: ran), rest. repeat split; try assumption.
      rewrite Hev. cbn. now rewrite <- app_assoc.
    + exists [sql], statements. cbn. repeat split. discriminate.
Qed.

(** C1: every mutating operation hands its populated blueprint to the build
    step.  With the schema's query handle already inside a transaction the
    blueprint is built directly against that handle and only its statements
    reach the engine; otherwise one transaction is opened, the blueprint is
    built against its handle, and the transaction is committed when the
    build returns no error and rolled back, the database being as before,
    when it returns one. *)
Theorem mutations_follow_build_protocol (r : Schema) (m : Mutation) (w : World) :
  let blueprint := fst (populate r m w) in
  let w0 := snd (populate r m w) in
  let query := orm_Query (orm r) in
  let tx := orm_Begin (orm r) in
  let w' := snd (perform r m w) in
  exists ran rest,
    grammar_ToSql (grammar r) blueprint = (ran ++ rest)%list /\
    if query_InTransaction query then
      w' = snd (blueprint_Build blueprint query (grammar r) w0) /\
      w_events w' = (w_events w0 ++ map (EvExec query) ran)%list
    else
      match fst (blueprint_Build blueprint tx (grammar r) (emit (EvBegin tx) w0)) with
      | None =>
          rest = [] /\
          w_events w' =
            (w_events w0 ++ [EvBegin tx] ++ map (EvExec tx) ran ++ [EvCommit tx])%list /\
          w_db w' =
            w_db (snd (blueprint_Build blueprint tx (grammar r) (emit (EvBegin tx) w0)))
      | Some _ =>
          w_events w' =
            (w_events w0 ++ [EvBegin tx] ++ map (EvExec tx) ran ++ [EvRollback tx])%list /\
          w_db w' = w_db w0
      end.
Proof.
  cbv zeta. rewrite perform_populate_build.
  destruct (populate r m w) as [blueprint w0]. cbn [fst snd].
  unfold build, blueprint_Build.
  destruct (query_InTransaction (orm_Query (orm r))).
  - destruct (run_statements_trace (orm_Query (orm r))
                (grammar_ToSql (grammar r) blueprint) w0)
      as (ran & rest & Hsplit & Hev & _ & _).
    exists ran, rest. split; [assumption |].
    destruct (run_statements _ _ w0) as [err w1]. cbn [fst snd] in *. now split.
  - destruct (run_statements_trace (orm_Begin (orm r))
                (grammar_ToSql (grammar r) blueprint)
                (emit (EvBegin (orm_Begin (orm r))) w0))
      as (ran & rest & Hsplit & Hev & _ & Hnone).
    exists ran, rest. split; [assumption |].
    unfold orm_Transaction.
    destruct (run_statements _ _ (emit _ w0)) as [[e |] w1]; cbn [fst snd] in *.
    + split; [| reflexivity].
      cbn [emit restore w_events]. rewrite Hev. cbn. now rewrite <- !app_assoc.
    + split; [now apply Hnone |]. split; [| reflexivity].
      cbn [emit restore w_events]. rewrite Hev. cbn. now rewrite <- !app_assoc.
Qed.

(** C5: an error of the build comes back from the operation wrapped in the
    operation's own kind (FailedToCreateTable for Create, FailedToDropTable
    for Drop and DropIfExists, FailedToDropColumns for DropColumns,
    FailedToRenameTable for Rename, FailedToChangeTable for Table) together
    with the table name; when the build returns no error, neither does the
    operation. *)
Theorem mutations_wrap_build_errors (r : Schema) (m : Mutation) (w : World) :
  let blueprint := fst (populate r m w) in
  let w0 := snd (populate r m w) in
  match fst (build r blueprint w0) with
  | Some cause => fst (perform r m w) = Some (failure_kind m cause)
  | None => fst (perform r m w) = None
  end.
Proof.
  cbv zeta. rewrite perform_populate_build.
  destruct (populate r m w) as [blueprint w0]. cbn [fst snd].
  now destruct (build r blueprint w0) as [[e |] w1].
Qed.

(** *** Derived queries *)

Lemma slices_Contains_nil (v : string) : slices.Contains [] v = false.
Proof. reflexivity. Qed.

Lemma all_listed_nil (columns : list string) :
  columns <> [] -> all_listed [] columns = false.
Proof. destruct columns; [congruence | reflexivity]. Qed.

(** C4, amended: when the underlying introspection call returns an error,
    each listing operation logs it on the schema's sink and returns the
    empty listing, and HasColumn, HasIndex, HasTable, HasType and HasView
    log it and return false, as HasColumns does when it is asked about at
    least one column; none of them has an error result. *)
Theorem introspection_failures_are_logged (r : Schema) (e : Error) (w w1 : World) :
  (forall table,
      GetColumns (DriverSchema r) table w = (Err e, w1) ->
      let w2 := logged (log r) "failed to get %s columns: %v"
                       [ArgString table; ArgError e] w1 in
      GetColumnListing r table w = ([], w2) /\
      (forall column, HasColumn r table column w = (false, w2)) /\
      (forall columns, columns <> [] -> HasColumns r table columns w = (false, w2))) /\
  (forall table,
      GetIndexes (DriverSchema r) table w = (Err e, w1) ->
      let w2 := logged (log r) "failed to get %s indexes: %v"
                       [ArgString table; ArgError e] w1 in
      GetIndexListing r table w = ([], w2) /\
      (forall index, HasIndex r table index w = (false, w2))) /\
  (GetTables (DriverSchema r) w = (Err e, w1) ->
   GetTableListing r w = ([], logged (log r) "failed to get tables: %v" [ArgError e] w1) /\
   (forall name,
       HasTable r name w =
         (false,
          logged (log r) (error_Error (SchemaFailedToGetTables (orm_Name (orm r)) e))
                 [] w1))) /\
  (GetTypes (DriverSchema r) w = (Err e, w1) ->
   forall name,
     HasType r name w =
       (false,
        logged (log r) (error_Error (SchemaFailedToGetTables (orm_Name (orm r)) e))
               [] w1)) /\
  (GetViews (DriverSchema r) w = (Err e, w1) ->
   forall name,
     HasView r name w =
       (false,
        logged (log r) (error_Error (SchemaFailedToGetTables (orm_Name (orm r)) e))
               [] w1)).
Proof.
  repeat apply conj.
  - intros table H w2.
    assert (L : GetColumnListing r table w = ([], w2)).
    { unfold GetColumnListing. now rewrite (bind_eq _ H). }
    split; [exact L | split].
    + intros column. unfold HasColumn. now rewrite (bind_eq _ L).
    + intros columns Hne. unfold HasColumns. rewrite (bind_eq _ L).
      unfold ret. now rewrite all_listed_nil.
  - intros table H w2.
    assert (L : GetIndexListing r table w = ([], w2)).
    { unfold GetIndexListing. now rewrite (bind_eq _ H). }
    split; [exact L |].
    intros index. unfold HasIndex. now rewrite (bind_eq _ L).
  - intros H. split.
    + unfold GetTableListing. now rewrite (bind_eq _ H).
    + intros name. unfold HasTable. destruct (split_name name) as [q t].
      now rewrite (bind_eq _ H).
  - intros H name. unfold HasType. now rewrite (bind_eq _ H).
  - intros H name. unfold HasView. now rewrite (bind_eq _ H).
Qed.

(** *** HasTable *)

Lemma match_table_spec (tables : list contractsschema_Table) (tableName q : string) :
  match_table tables tableName q = true <->
  exists table, In table tables /\ table_Name table = tableName /\
                (q = "" \/ q = table_Schema table).
Proof.
  unfold match_table. rewrite existsb_exists.
  split; intros (table & Hin & H); exists table; (split; [assumption |]).
  - apply andb_true_iff in H as [Hn Hs]. apply String.eqb_eq in Hn.
    apply orb_true_iff in Hs as [Hs | Hs]; apply String.eqb_eq in Hs; tauto.
  - destruct H as [Hn Hs]. apply andb_true_iff. split; [now apply String.eqb_eq |].
    apply orb_true_iff. destruct Hs as [Hs | Hs]; [left | right]; now apply String.eqb_eq.
Qed.

Lemma HasTable_found (r : Schema) (name : string) {w w1 : World}
  {tables : list contractsschema_Table} :
  GetTables (DriverSchema r) w = (Ok tables, w1) ->
  HasTable r name w =
    (match_table tables (prefix r ++ snd (split_name name)) (fst (split_name name)), w1).
Proof.
  intros H. unfold HasTable. destruct (split_name name) as [q t].
  now rewrite (bind_eq _ H).
Qed.

(** C6, amended: when the name is a non-empty schema part, a dot and a table
    part without dots, HasTable answers true exactly when GetTables reports
    a table whose Name is the prefix followed by the table part and whose
    Schema is the schema part; when the name has no dot, or nothing before
    its dot, it answers true exactly when some reported table's Name is the
    prefixed table part, whatever that table's Schema. *)
Theorem HasTable_matches_name_and_schema (r : Schema) (w w1 : World)
  (tables : list contractsschema_Table) (q t : string) :
  GetTables (DriverSchema r) w = (Ok tables, w1) ->
  count_dots t = O ->
  (q <> "" ->
   (fst (HasTable r (q ++ "." ++ t) w) = true <->
    exists table, In table tables /\ table_Name table = prefix r ++ t /\
                  table_Schema table = q)) /\
  (fst (HasTable r ("." ++ t) w) = true <->
   exists table, In table tables /\ table_Name table = prefix r ++ t) /\
  (fst (HasTable r t w) = true <->
   exists table, In table tables /\ table_Name table = prefix r ++ t).
Proof.
  intros H Ht. split; [| split].
  - intros Hq. rewrite (HasTable_found r _ H), (split_name_qualified q t Ht).
    cbn [fst snd]. rewrite match_table_spec.
    split.
    + intros (table & Hin & Hn & [Hs | Hs]); [contradiction |].
      exists table. repeat split; congruence.
    + intros (table & Hin & Hn & Hs). exists table.
      repeat split; try assumption. right. congruence.
  - rewrite (HasTable_found r _ H).
    change (split_name ("." ++ t)) with (split_name ("" ++ "." ++ t)).
    rewrite (split_name_qualified "" t Ht).
    cbn [fst snd]. rewrite match_table_spec.
    split.
    + intros (table & Hin & Hn & _). now exists table.
    + intros (table & Hin & Hn). exists table. repeat split; try assumption. now left.
  - rewrite (HasTable_found r _ H), (split_name_plain t Ht).
    cbn [fst snd]. rewrite match_table_spec.
    split.
    + intros (table & Hin & Hn & _). now exists table.
    + intros (table & Hin & Hn). exists table. repeat split; try assumption. now left.
Qed.

(** C10: a name with more than one dot is split at its last dot: what stands
    before it, dots included, is the schema qualifier, and only the segment
    after it is prefixed and compared with the table names. *)
Theorem HasTable_splits_at_last_dot (r : Schema) (name : string) (w : World) :
  (1 < count_dots name)%nat ->
  exists q t,
    name = q ++ "." ++ t /\
    count_dots t = O /\
    (0 < count_dots q)%nat /\
    split_name name = (q, t) /\
    forall tables w1,
      GetTables (DriverSchema r) w = (Ok tables, w1) ->
      HasTable r name w =
        (existsb (fun table => String.eqb (table_Name table) (prefix r ++ t)
                               && String.eqb q (table_Schema table)) tables,
         w1).
Proof.
  intros Hdots.
  destruct (last_dot_decomposition name) as (q & t & -> & Ht); [lia |].
  assert (Hq : (0 < count_dots q)%nat).
  { rewrite !count_dots_app, Ht in Hdots. cbn in Hdots. lia. }
  exists q, t. repeat split; try assumption.
  - now apply split_name_qualified.
  - intros tables w1 H.
    rewrite (HasTable_found r _ H), (split_name_qualified q t Ht).
    cbn [fst snd]. unfold match_table. f_equal.
    assert (Hne : String.eqb q "" = false).
    { apply String.eqb_neq. intros ->. cbn in Hq. lia. }
    now rewrite Hne.
Qed.

End Properties.

(** ** Further properties of the facade *)

Section MoreProperties.

Context {K : Carriers} {C : Contracts}.

Lemma slices_Contains_In (l : list string) (v : string) :
  slices.Contains l v = true <-> In v l.
Proof.
  induction l as [| x l IH]; cbn; [intuition discriminate |].
  destruct (String.eqb_spec x v) as [-> | Hne]; [intuition |].
  rewrite IH. intuition congruence.
Qed.

Lemma slices_Contains_map {A : Type} (name : A -> string) (l : list A) (v : string) :
  slices.Contains (map name l) v = existsb (fun x => String.eqb (name x) v) l.
Proof.
  induction l as [| x l IH]; [reflexivity |].
  cbn. rewrite IH. now destruct (String.eqb (name x) v).
Qed.

Lemma existsb_pointwise {A : Type} (f g : A -> bool) (l : list A) :
  (forall x, f x = g x) -> existsb f l = existsb g l.
Proof.
  intros H. induction l as [| x l IH]; [reflexivity |]. cbn. now rewrite H, IH.
Qed.

Lemma all_listed_In (columnListing columns : list string) :
  all_listed columnListing columns = true <->
  forall column, In column columns -> In column columnListing.
Proof.
  induction columns as [| c columns IH]; cbn; [intuition |].
  destruct (slices.Contains columnListing c) eqn:E; cbn.
  - apply slices_Contains_In in E. rewrite IH. split.
    + intros H column [<- | Hin]; auto.
    + intros H column Hin. apply H. now right.
  - split; [discriminate |]. intros H.
    assert (Hc : In c columnListing) by (apply H; now left).
    apply slices_Contains_In in Hc. congruence.
Qed.

Lemma all_listed_app (columnListing a b : list string) :
  all_listed columnListing (a ++ b) =
  all_listed columnListing a && all_listed columnListing b.
Proof.
  induction a as [| c a IH]; [reflexivity |].
  cbn. now destruct (slices.Contains columnListing c).
Qed.

Lemma GetColumnListing_ok (r : Schema) (table : string) {w w1 : World}
  {columns : list contractsschema_Column} :
  GetColumns (DriverSchema r) table w = (Ok columns, w1) ->
  GetColumnListing r table w = (map column_Name columns, w1).
Proof.
  intros H. unfold GetColumnListing. rewrite (bind_eq _ H).
  now rewrite fold_append_names.
Qed.

Lemma GetIndexListing_ok (r : Schema) (table : string) {w w1 : World}
  {indexes : list contractsschema_Index} :
  GetIndexes (DriverSchema r) table w = (Ok indexes, w1) ->
  GetIndexListing r table w = (map index_Name indexes, w1).
Proof.
  intros H. unfold GetIndexListing. rewrite (bind_eq _ H).
  now rewrite fold_append_names.
Qed.

Lemma In_map_name {A : Type} (name : A -> string) (l : list A) (v : string) :
  In v (map name l) <-> exists x, In x l /\ name x = v.
Proof.
  rewrite in_map_iff. split; intros (x & H1 & H2); exists x; tauto.
Qed.

(** X1: when GetColumns succeeds, HasColumns answers true exactly when
    every requested column is the Name of a column that call returned, and
    leaves the world as that call left it. *)
Theorem HasColumns_checks_every_column (r : Schema) (table : string)
  (columns : list string) (w w1 : World) (found : list contractsschema_Column) :
  GetColumns (DriverSchema r) table w = (Ok found, w1) ->
  snd (HasColumns r table columns w) = w1 /\
  (fst (HasColumns r table columns w) = true <->
   forall column, In column columns ->
                  exists c, In c found /\ column_Name c = column).
Proof.
  intros H. unfold HasColumns. rewrite (bind_eq _ (GetColumnListing_ok r table H)).
  cbn [ret fst snd]. split; [reflexivity |].
  rewrite all_listed_In. split; intros Hall column Hin.
  - now apply In_map_name, Hall.
  - now apply In_map_name, Hall.
Qed.

(** X2: when the introspection call succeeds, HasColumn and HasIndex answer
    true exactly when the call returned a column, or an index, of that very
    Name, and leave the world as the call left it. *)
Theorem HasColumn_HasIndex_find_the_name (r : Schema) (table name : string)
  (w w1 : World) :
  (forall found,
      GetColumns (DriverSchema r) table w = (Ok found, w1) ->
      snd (HasColumn r table name w) = w1 /\
      (fst (HasColumn r table name w) = true <->
       exists c, In c found /\ column_Name c = name)) /\
  (forall found,
      GetIndexes (DriverSchema r) table w = (Ok found, w1) ->
      snd (HasIndex r table name w) = w1 /\
      (fst (HasIndex r table name w) = true <->
       exists i, In i found /\ index_Name i = name)).
Proof.
  split; intros found H.
  - unfold HasColumn. rewrite (bind_eq _ (GetColumnListing_ok r table H)).
    cbn [ret fst snd]. split; [reflexivity |].
    now rewrite slices_Contains_In, In_map_name.
  - unfold HasIndex. rewrite (bind_eq _ (GetIndexListing_ok r table H)).
    cbn [ret fst snd]. split; [reflexivity |].
    now rewrite slices_Contains_In, In_map_name.
Qed.

(** X3: HasColumns fetches the column listing once, however many columns it
    is asked about; asked about two lists at once it answers the
    conjunction of the two answers, and asked about one column it is
    HasColumn. *)
Theorem HasColumns_composes (r : Schema) (table : string) (a b : list string)
  (column : string) (w : World) :
  snd (HasColumns r table (a ++ b) w) = snd (GetColumnListing r table w) /\
  fst (HasColumns r table (a ++ b) w) =
    fst (HasColumns r table a w) && fst (HasColumns r table b w) /\
  HasColumns r table [column] w = HasColumn r table column w.
Proof.
  unfold HasColumns, HasColumn, bind, ret.
  destruct (GetColumnListing r table w) as [columnListing w1]. cbn [fst snd].
  repeat split.
  - apply all_listed_app.
  - cbn. now destruct (slices.Contains columnListing column).
Qed.

(** X4: when the introspection call succeeds, HasType and HasView answer
    true exactly when a type, or a view, of exactly the given name was
    returned: unlike HasTable they neither add the prefix nor split a
    qualifier off the name. *)
Theorem HasType_HasView_compare_the_whole_name (r : Schema) (name : string)
  (w w1 : World) :
  (forall types,
      GetTypes (DriverSchema r) w = (Ok types, w1) ->
      snd (HasType r name w) = w1 /\
      (fst (HasType r name w) = true <->
       exists t, In t types /\ type_Name t = name)) /\
  (forall views,
      GetViews (DriverSchema r) w = (Ok views, w1) ->
      snd (HasView r name w) = w1 /\
      (fst (HasView r name w) = true <->
       exists v, In v views /\ view_Name v = name)).
Proof.
  split; intros found H.
  - unfold HasType. rewrite (bind_eq _ H). cbn [ret fst snd].
    split; [reflexivity |]. rewrite existsb_exists.
    split; intros (x & Hin & Hx); exists x; (split; [assumption |]);
      now apply String.eqb_eq.
  - unfold HasView. rewrite (bind_eq _ H). cbn [ret fst snd].
    split; [reflexivity |]. rewrite existsb_exists.
    split; intros (x & Hin & Hx); exists x; (split; [assumption |]);
      now apply String.eqb_eq.
Qed.

(** X5: for a name without a dot, HasTable answers what looking the
    prefixed name up in GetTableListing answers, whether GetTables succeeds
    or fails. *)
Theorem HasTable_agrees_with_GetTableListing (r : Schema) (name : string) (w : World) :
  count_dots name = O ->
  fst (HasTable r name w) =
    slices.Contains (fst (GetTableListing r w)) (prefix r ++ name).
Proof.
  intros Hname. unfold HasTable, GetTableListing.
  rewrite (split_name_plain name Hname). unfold bind.
  destruct (GetTables (DriverSchema r) w) as [[tables | err] w1]; [| reflexivity].
  cbn [ret fst]. rewrite fold_append_names. cbn [app].
  rewrite slices_Contains_map. unfold match_table.
  apply existsb_pointwise. intros table. cbn. now rewrite andb_true_r.
Qed.

(** X6: whenever the name contains a dot, both offsets HasTable slices the
    name at lie between 0 and the length of the name, so neither slice
    expression can panic. *)
Theorem HasTable_slices_within_the_name (name : string) :
  strings.Contains name "." = true ->
  let lastDotIndex := strings.LastIndex name "." in
  0 <= lastDotIndex <= Z.of_nat (String.length name) /\
  0 <= lastDotIndex + 1 <= Z.of_nat (String.length name).
Proof.
  intros H. cbv zeta. pose proof (LastIndex_dot_in_range name H). lia.
Qed.

(** X7: the table part HasTable keeps never contains a dot; a name with a
    dot is its schema part, a dot and its table part put together again,
    and a name without one is kept whole, with an empty schema part. *)
Theorem split_name_rejoins (name : string) :
  let (q, t) := split_name name in
  count_dots t = O /\
  if strings.Contains name "." then name = q ++ "." ++ t
  else q = "" /\ t = name.
Proof.
  destruct (strings.Contains name ".") eqn:E.
  - destruct (last_dot_decomposition name) as (q & t & -> & Ht).
    { now apply Contains_dot_true. }
    rewrite (split_name_qualified q t Ht). now split.
  - apply Contains_dot_false in E. rewrite (split_name_plain name E). now split.
Qed.

(** X8: SetConnection changes nothing in what the listings and the Has*
    predicates answer, which still go through the driver schema built at
    construction; GetForeignKeys, which goes through the orm, sends the
    query it compiled as before to the handle of the new connection. *)
Theorem SetConnection_keeps_introspection (r : Schema) (name table x : string)
  (columns : list string) (w : World) :
  let r' := SetConnection r name in
  GetColumnListing r' table w = GetColumnListing r table w /\
  GetIndexListing r' table w = GetIndexListing r table w /\
  GetTableListing r' w = GetTableListing r w /\
  HasColumn r' table x w = HasColumn r table x w /\
  HasColumns r' table columns w = HasColumns r table columns w /\
  HasIndex r' table x w = HasIndex r table x w /\
  fst (HasTable r' x w) = fst (HasTable r x w) /\
  fst (HasType r' x w) = fst (HasType r x w) /\
  fst (HasView r' x w) = fst (HasView r x w) /\
  w_events (snd (GetForeignKeys r' table w)) =
    (w_events w ++
     [EvScan (orm_Query (orm_Connection (orm r) name))
             (CompileForeignKeys (grammar r) (schema r) (prefix r ++ table))])%list.
Proof.
  cbv zeta. repeat apply conj; try reflexivity.
  - unfold HasTable. destruct (split_name x) as [q t]. cbn [DriverSchema SetConnection].
    unfold bind. now destruct (GetTables (DriverSchema r) w) as [[tables | err] w1].
  - unfold HasType, bind. cbn [DriverSchema SetConnection].
    now destruct (GetTypes (DriverSchema r) w) as [[types | err] w1].
  - unfold HasView, bind. cbn [DriverSchema SetConnection].
    now destruct (GetViews (DriverSchema r) w) as [[views | err] w1].
  - unfold GetForeignKeys, query_RawScan, bind. cbn.
    now destruct (engine_scan _ _ _).
Qed.

Lemma NewSchema_Register (cfg : config_Config) (sink : log_Log) (o : contractsorm_Orm)
  (ms ms' : list contractsschema_Migration) :
  NewSchema cfg sink o ms' =
    match NewSchema cfg sink o ms with
    | Returned s => Returned (Register s ms')
    | Panicked e => Panicked e
    end.
Proof.
  unfold NewSchema.
  repeat match goal with
         | |- context [String.eqb ?a ?b] => destruct (String.eqb a b)
         end; reflexivity.
Qed.

(** X9: registering migrations and constructing commute: a Schema
    constructed with one migration list and then given another by Register
    is the Schema constructed with the other list, and Connection on a
    Schema after Register is Connection before it followed by the same
    Register; construction panics for the same drivers whatever the list.
    Migrations then returns the registered list. *)
Theorem Register_commutes_with_construction (cfg : config_Config) (sink : log_Log)
  (o : contractsorm_Orm) (ms ms' : list contractsschema_Migration)
  (r : Schema) (name : string) :
  NewSchema cfg sink o ms' =
    match NewSchema cfg sink o ms with
    | Returned s => Returned (Register s ms')
    | Panicked e => Panicked e
    end /\
  Connection (Register r ms') name =
    match Connection r name with
    | Returned s => Returned (Register s ms')
    | Panicked e => Panicked e
    end /\
  Migrations (Register r ms') = ms'.
Proof.
  split; [apply NewSchema_Register | split; [| reflexivity]].
  unfold Connection. cbn [Register config log orm migrations].
  apply NewSchema_Register.
Qed.

(** X10: when Connection returns, the new Schema and the receiver after
    SetConnection with the same name are bound to the same orm, report the
    same connection name and carry the same configuration, sink and
    migrations. *)
Theorem Connection_agrees_with_SetConnection (r s : Schema) (name : string) :
  Connection r name = Returned s ->
  let r' := SetConnection r name in
  Orm s = Orm r' /\
  GetConnection s = GetConnection r' /\
  Migrations s = Migrations r' /\
  config s = config r' /\
  log s = log r'.
Proof.
  intros H. apply NewSchema_Returned in H.
  destruct H as (Hc & Hl & Ho & Hm & _).
  cbv zeta. unfold Orm, GetConnection, Migrations. cbn [SetConnection orm migrations config log].
  rewrite Hc, Hl, Ho, Hm. repeat split.
Qed.


(** X12: a Schema that construction returned, and the same Schema after
    Register, has its embedded common and driver schemas built over the very
    grammar, orm, prefix and schema name it stores, and reports the name of
    the orm it was constructed with. *)
Theorem NewSchema_binds_its_collaborators (cfg : config_Config) (sink : log_Log)
  (o : contractsorm_Orm) (ms ms' : list contractsschema_Migration) (s : Schema) :
  NewSchema cfg sink o ms = Returned s ->
  well_bound s /\ well_bound (Register s ms') /\
  Orm s = o /\ GetConnection s = orm_Name o /\ Migrations s = ms.
Proof.
  intros H. apply NewSchema_Returned in H.
  destruct H as (_ & _ & Ho & Hm & _ & Hcommon & Hdialect).
  assert (W : well_bound s).
  { unfold well_bound. rewrite Ho. split; [exact Hcommon |].
    destruct Hdialect as [D | [D | [D | D]]];
      destruct D as (_ & _ & _ & _ & D); tauto. }
  split; [exact W | split; [exact W | split; [exact Ho | split; [| exact Hm]]]].
  unfold GetConnection. now rewrite Ho.
Qed.

End MoreProperties.

(** ** The facade at work on the in-memory stand-in *)

#[local] Existing Instance Demo.carriers.
#[local] Existing Instance Demo.contracts.

Lemma listings_project_names_witness :
  GetColumns (DriverSchema Demo.main) "users" Demo.empty_world
    = (Ok [mkColumn "id" "bigint"; mkColumn "email" "text"], Demo.empty_world) /\
  GetColumnListing Demo.main "users" Demo.empty_world
    = (["id"; "email"], Demo.empty_world).
Proof.
  split; [reflexivity |].
  apply (proj1 (listings_project_names Demo.main Demo.empty_world Demo.empty_world)
               "users" [mkColumn "id" "bigint"; mkColumn "email" "text"]).
  reflexivity.
Defined.

Lemma NewSchema_driver_dispatch_witness :
  NewSchema (K:=Demo.carriers) Demo.configuration "stderr" ("legacy", false) []
    = Panicked (SchemaDriverNotSupported "oracle") /\
  exists s,
    NewSchema (K:=Demo.carriers) Demo.configuration "stderr" ("reports", false) [] = Returned s /\
    grammar s = ("mysql", "rp_") /\
    processor s = "mysql" /\
    DriverSchema s = ("mysql", "reports").
Proof.
  split.
  - refine (proj1 (NewSchema_driver_dispatch (K:=Demo.carriers) Demo.configuration
                                             "stderr" ("legacy", false) []) _ _ _ _);
      vm_compute; discriminate.
  - refine (proj1 (proj2 (proj2 (NewSchema_driver_dispatch
                                   (K:=Demo.carriers) Demo.configuration
                                   "stderr" ("reports", false) []))) _).
    reflexivity.
Defined.

(** C2 as stated fails: after SetConnection the Schema is bound to the named
    connection, but it is not what the configuration resolves for that
    connection; grammar, processor, prefix and schema are still those of the
    connection it came from. *)
Lemma SetConnection_keeps_the_old_dialect :
  let r' := SetConnection Demo.main "reports" in
  orm r' = ("reports", false) /\
  ~ resolved_for (config Demo.main) (log Demo.main)
                 (orm_Connection (orm Demo.main) "reports") (migrations Demo.main) r' /\
  exists fresh,
    Connection Demo.main "reports" = Returned fresh /\
    grammar r' <> grammar fresh /\
    processor r' <> processor fresh /\
    prefix r' <> prefix fresh /\
    schema r' <> schema fresh.
Proof.
  cbv zeta. split; [reflexivity | split].
  - intros (_ & _ & _ & _ & Hprefix & _). vm_compute in Hprefix. discriminate.
  - eexists. split; [reflexivity |]. repeat split; vm_compute; discriminate.
Qed.

Lemma Connection_resolves_named_connection_witness :
  Connection Demo.main "reports" = Returned Demo.reports /\
  resolved_for (K:=Demo.carriers) Demo.configuration "stderr" ("reports", false)
               ["2024_create_users"] Demo.reports.
Proof.
  split; [reflexivity |].
  refine (proj1 (proj2 (Connection_resolves_named_connection Demo.main "reports"))
                Demo.reports _).
  reflexivity.
Defined.

(** C4 as stated fails for HasColumns: asked about no column at all, it
    answers true although the introspection call failed. *)
Lemma HasColumns_of_no_columns_is_true_on_failure :
  GetColumns (DriverSchema Demo.broken) "users" Demo.empty_world
    = (Err (Demo.down "down"), Demo.empty_world) /\
  fst (HasColumns Demo.broken "users" [] Demo.empty_world) = true.
Proof. split; reflexivity. Qed.

Lemma introspection_failures_are_logged_witness :
  let e := Demo.down "down" in
  let w2 := logged (K:=Demo.carriers) "stderr" "failed to get %s columns: %v"
                   [ArgString "users"; ArgError e] Demo.empty_world in
  GetColumns (DriverSchema Demo.broken) "users" Demo.empty_world
    = (Err e, Demo.empty_world) /\
  GetColumnListing Demo.broken "users" Demo.empty_world = ([], w2) /\
  HasColumn Demo.broken "users" "id" Demo.empty_world = (false, w2) /\
  HasColumns Demo.broken "users" ["id"] Demo.empty_world = (false, w2).
Proof.
  cbv zeta.
  assert (H : GetColumns (DriverSchema Demo.broken) "users" Demo.empty_world
              = (Err (Demo.down "down"), Demo.empty_world)) by reflexivity.
  split; [exact H |].
  destruct (proj1 (introspection_failures_are_logged Demo.broken (Demo.down "down")
                     Demo.empty_world Demo.empty_world) "users" H)
    as (L & Hc & Hcs).
  split; [exact L | split; [apply Hc | apply Hcs; discriminate]].
Defined.

(** C6 as stated fails for a name that starts with its only dot: the schema
    part is empty, and HasTable answers true for a table of another
    schema. *)
Lemma HasTable_with_empty_qualifier_ignores_schema :
  let tables := [mkTable "app_users" "public"] in
  let w := Demo.world_with tables in
  GetTables (DriverSchema Demo.main) w = (Ok tables, w) /\
  strings.Contains ".users" "." = true /\
  split_name ".users" = ("", "users") /\
  fst (HasTable Demo.main ".users" w) = true /\
  ~ (exists table, In table tables /\
                   table_Name table = prefix Demo.main ++ "users" /\
                   table_Schema table = "").
Proof.
  cbv zeta. repeat split.
  intros (table & [<- | []] & _ & Hs). discriminate.
Qed.

Lemma HasTable_matches_name_and_schema_witness :
  let tables := [mkTable "app_users" "public"; mkTable "app_users" "audit"] in
  let w := Demo.world_with tables in
  GetTables (DriverSchema Demo.main) w = (Ok tables, w) /\
  count_dots "users" = O /\
  "audit" <> "" /\
  (fst (HasTable Demo.main "audit.users" w) = true <->
   exists table, In table tables /\ table_Name table = "app_users" /\
                 table_Schema table = "audit").
Proof.
  cbv zeta.
  assert (H : GetTables (DriverSchema Demo.main)
                (Demo.world_with [mkTable "app_users" "public";
                                  mkTable "app_users" "audit"])
              = (Ok [mkTable "app_users" "public"; mkTable "app_users" "audit"],
                 Demo.world_with [mkTable "app_users" "public";
                                  mkTable "app_users" "audit"])) by reflexivity.
  assert (Ht : count_dots "users" = O) by reflexivity.
  assert (Hq : "audit" <> "") by discriminate.
  split; [exact H | split; [exact Ht | split; [exact Hq |]]].
  exact (proj1 (HasTable_matches_name_and_schema Demo.main _ _ _ "audit" "users" H Ht)
               Hq).
Defined.

Lemma HasTable_splits_at_last_dot_witness :
  (1 < count_dots "warehouse.audit.users")%nat /\
  exists q t,
    "warehouse.audit.users" = q ++ "." ++ t /\
    count_dots t = O /\
    (0 < count_dots q)%nat /\
    split_name "warehouse.audit.users" = (q, t).
Proof.
  assert (H : (1 < count_dots "warehouse.audit.users")%nat) by (cbn; lia).
  split; [exact H |].
  destruct (HasTable_splits_at_last_dot Demo.main "warehouse.audit.users"
                                        Demo.empty_world H)
    as (q & t & Hname & Ht & Hq & Hsplit & _).
  now exists q, t.
Defined.

(** Three runs of Create: on its own it commits; with a statement the engine
    rejects it rolls back and leaves the database empty; inside a
    transaction of the caller it opens none, and the statements that ran
    before the failure stay for the caller to roll back. *)
Example Create_commits :
  let res := Create Demo.main "users" Demo.add_columns Demo.empty_world in
  fst res = None /\
  w_events (snd res) =
    [EvBegin ("main", true); EvExec ("main", true) "create app_users";
     EvExec ("main", true) "add id"; EvExec ("main", true) "add email";
     EvCommit ("main", true)] /\
  map table_Name (w_db (snd res)) = ["create app_users"; "add id"; "add email"].
Proof. repeat split. Qed.

Example Create_rolls_back :
  let res := Create Demo.main "users" Demo.add_invalid Demo.empty_world in
  fst res = Some (SchemaFailedToCreateTable "users" (QueryError "empty statement")) /\
  w_events (snd res) =
    [EvBegin ("main", true); EvExec ("main", true) "create app_users";
     EvExec ("main", true) "add id"; EvExec ("main", true) "";
     EvRollback ("main", true)] /\
  w_db (snd res) = [].
Proof. repeat split. Qed.

Example Create_inside_a_transaction :
  let res := Create Demo.main_in_tx "users" Demo.add_invalid Demo.empty_world in
  fst res = Some (SchemaFailedToCreateTable "users" (QueryError "empty statement")) /\
  w_events (snd res) =
    [EvExec ("main", true) "create app_users"; EvExec ("main", true) "add id";
     EvExec ("main", true) ""] /\
  map table_Name (w_db (snd res)) = ["create app_users"; "add id"].
Proof. repeat split. Qed.

(** Runs of the further properties. *)

Lemma HasColumns_checks_every_column_witness :
  GetColumns (DriverSchema Demo.main) "users" Demo.empty_world
    = (Ok [mkColumn "id" "bigint"; mkColumn "email" "text"], Demo.empty_world) /\
  snd (HasColumns Demo.main "users" ["email"; "phone"] Demo.empty_world)
    = Demo.empty_world /\
  (fst (HasColumns Demo.main "users" ["email"; "phone"] Demo.empty_world) = true <->
   forall column, In column ["email"; "phone"] ->
     exists c, In c [mkColumn "id" "bigint"; mkColumn "email" "text"] /\
               column_Name c = column).
Proof.
  assert (H : GetColumns (DriverSchema Demo.main) "users" Demo.empty_world
              = (Ok [mkColumn "id" "bigint"; mkColumn "email" "text"],
                 Demo.empty_world)) by reflexivity.
  split; [exact H |].
  exact (HasColumns_checks_every_column Demo.main "users" ["email"; "phone"] _ _ _ H).
Defined.

Lemma HasColumn_HasIndex_find_the_name_witness :
  GetIndexes (DriverSchema Demo.main) "users" Demo.empty_world
    = (Ok [mkIndex "users_pkey" ["id"]], Demo.empty_world) /\
  snd (HasIndex Demo.main "users" "users_pkey" Demo.empty_world) = Demo.empty_world /\
  (fst (HasIndex Demo.main "users" "users_pkey" Demo.empty_world) = true <->
   exists i, In i [mkIndex "users_pkey" ["id"]] /\ index_Name i = "users_pkey").
Proof.
  assert (H : GetIndexes (DriverSchema Demo.main) "users" Demo.empty_world
              = (Ok [mkIndex "users_pkey" ["id"]], Demo.empty_world)) by reflexivity.
  split; [exact H |].
  exact (proj2 (HasColumn_HasIndex_find_the_name Demo.main "users" "users_pkey" _ _)
               _ H).
Defined.

Lemma HasType_HasView_compare_the_whole_name_witness :
  GetViews (DriverSchema Demo.main) Demo.empty_world
    = (Ok [mkView "active_users" "public"], Demo.empty_world) /\
  snd (HasView Demo.main "users" Demo.empty_world) = Demo.empty_world /\
  (fst (HasView Demo.main "users" Demo.empty_world) = true <->
   exists v, In v [mkView "active_users" "public"] /\ view_Name v = "users").
Proof.
  assert (H : GetViews (DriverSchema Demo.main) Demo.empty_world
              = (Ok [mkView "active_users" "public"], Demo.empty_world))
    by reflexivity.
  split; [exact H |].
  exact (proj2 (HasType_HasView_compare_the_whole_name Demo.main "users" _ _) _ H).
Defined.

Lemma HasTable_agrees_with_GetTableListing_witness :
  let w := Demo.world_with [mkTable "app_users" "public"] in
  count_dots "users" = O /\
  fst (HasTable Demo.main "users" w) =
    slices.Contains (fst (GetTableListing Demo.main w)) (prefix Demo.main ++ "users").
Proof.
  cbv zeta. assert (H : count_dots "users" = O) by reflexivity.
  split; [exact H |].
  exact (HasTable_agrees_with_GetTableListing Demo.main "users"
           (Demo.world_with [mkTable "app_users" "public"]) H).
Defined.

Lemma HasTable_slices_within_the_name_witness :
  strings.Contains "audit.users" "." = true /\
  0 <= strings.LastIndex "audit.users" "." <= 11 /\
  0 <= strings.LastIndex "audit.users" "." + 1 <= 11.
Proof.
  assert (H : strings.Contains "audit.users" "." = true) by reflexivity.
  split; [exact H |].
  exact (HasTable_slices_within_the_name "audit.users" H).
Defined.

Lemma Connection_agrees_with_SetConnection_witness :
  Connection Demo.main "reports" = Returned Demo.reports /\
  Orm Demo.reports = Orm (SetConnection Demo.main "reports") /\
  GetConnection Demo.reports = GetConnection (SetConnection Demo.main "reports") /\
  Migrations Demo.reports = Migrations (SetConnection Demo.main "reports") /\
  config Demo.reports = config (SetConnection Demo.main "reports") /\
  log Demo.reports = log (SetConnection Demo.main "reports").
Proof.
  assert (H : Connection Demo.main "reports" = Returned Demo.reports) by reflexivity.
  split; [exact H |].
  exact (Connection_agrees_with_SetConnection Demo.main Demo.reports "reports" H).
Defined.

Lemma NewSchema_binds_its_collaborators_witness :
  NewSchema (K:=Demo.carriers) Demo.configuration "stderr" ("main", false)
            ["2024_create_users"] = Returned Demo.main /\
  well_bound Demo.main /\
  well_bound (Register Demo.main ["2025_add_orders"]) /\
  Orm Demo.main = ("main", false) /\
  GetConnection Demo.main = "main" /\
  Migrations Demo.main = ["2024_create_users"].
Proof.
  assert (H : NewSchema (K:=Demo.carriers) Demo.configuration "stderr" ("main", false)
                        ["2024_create_users"] = Returned Demo.main) by reflexivity.
  split; [exact H |].
  exact (NewSchema_binds_its_collaborators (K:=Demo.carriers) Demo.configuration
           "stderr" ("main", false) ["2024_create_users"] ["2025_add_orders"]
           Demo.main H).
Defined.
